(** * pyhkp: the HKP client's request construction and index parser

    A shallow embedding of [pyhkp.py] (class [HKP]): the key-id check of
    [retrieve], [_parse_options], the parameter dictionaries built by
    [retrieve], [search] and [submit], [lookup_pubkey_algorithm] and
    [_parse_index].

    Conventions of the embedding.
    - A Python [str] is a [string]; its characters are the 8-bit characters of
      [ascii], so code points above 255 are outside the model.
    - A raised exception is the [Err] case of [result]; [ValueError] carries
      the message the source gives it.
    - A [dict] with string keys is a [gmap string _]; a [set] of strings is a
      [gset string] together with an arbitrary iteration order ([SetOrder]).
    - The HTTP exchange itself ([urlopen]) is not modelled: the functions
      [retrieve_params], [search_params] and [submit_params] are the code of
      [retrieve], [search] and [submit] up to the dictionary [params]. *)

From Stdlib Require Import ZArith Ascii String List Lia.
From stdpp Require Import gmap strings list fin_maps.

Open Scope string_scope.

(** ** Exceptions and results *)

Inductive exn : Type :=
| ValueError (msg : string)   (* raise ValueError(msg), int() of a bad literal *)
| IndexError                  (* tuple or list index out of range *)
| AttributeError              (* None.startswith *)
| TypeError                   (* None[0] *)
| DateRangeError.             (* utcfromtimestamp outside years 1..9999 *)

Inductive result (A : Type) : Type :=
| Ok (a : A)
| Err (e : exn).
Arguments Ok {A} a.
Arguments Err {A} e.

Definition bind {A B : Type} (r : result A) (k : A -> result B) : result B :=
  match r with
  | Ok a => k a
  | Err e => Err e
  end.

Definition rmap {A B : Type} (f : A -> B) (r : result A) : result B :=
  bind r (fun a => Ok (f a)).

(** The same function applied to every element of a returned list. *)
Definition fmap_result {A B : Type} (f : A -> B) (r : result (list A))
  : result (list B) :=
  rmap (map f) r.

Definition is_ok {A : Type} (r : result A) : bool :=
  match r with Ok _ => true | Err _ => false end.

Declare Scope result_scope.
Delimit Scope result_scope with result.
Notation "'let*' x ':=' r 'in' k" := (bind r (fun x => k))
  (at level 10, x name, r at level 100, k at level 200) : result_scope.
Open Scope result_scope.

(** ** Python string operations *)

Module Str.

(** [len(s)] *)
Definition len (s : string) : nat := String.length s.

(** [s.startswith(p)] *)
Fixpoint startswith (s p : string) {struct p} : bool :=
  match p with
  | EmptyString => true
  | String b p' =>
      match s with
      | EmptyString => false
      | String a s' => if Ascii.eqb a b then startswith s' p' else false
      end
  end.

(** [sub in s] *)
Fixpoint contains (sub s : string) : bool :=
  if startswith s sub then true
  else match s with
       | EmptyString => false
       | String _ s' => contains sub s'
       end.

(** [s.replace(c, '')] for a one-character [c] *)
Fixpoint remove_char (c : ascii) (s : string) : string :=
  match s with
  | EmptyString => EmptyString
  | String a s' =>
      if Ascii.eqb a c then remove_char c s' else String a (remove_char c s')
  end.

(** [s.split(sep)] for a non-empty [sep]: the pieces between the successive
    non-overlapping occurrences of [sep], found from the left.  [skip] counts
    the characters of a matched separator that are still to be passed over;
    [cur] is the piece being collected. *)
Fixpoint split_go (sep : string) (skip : nat) (cur : string) (s : string)
  : list string :=
  match s with
  | EmptyString => [cur]
  | String c s' =>
      match skip with
      | S k => split_go sep k cur s'
      | O =>
          if startswith s sep
          then cur :: split_go sep (len sep - 1) EmptyString s'
          else split_go sep 0 (cur ++ String c EmptyString) s'
      end
  end.

Definition split (s sep : string) : list string :=
  split_go sep 0 EmptyString s.

(** [sep.join(l)] *)
Fixpoint join (sep : string) (l : list string) : string :=
  match l with
  | [] => EmptyString
  | [x] => x
  | x :: rest => x ++ sep ++ join sep rest
  end.

End Str.

(** [l[i]] on a list or tuple *)
Definition getitem {A : Type} (l : list A) (i : nat) : result A :=
  match nth_error l i with
  | Some x => Ok x
  | None => Err IndexError
  end.

(** ** Key-id check of [retrieve] (lines 160-168) *)

Definition key_id_lengths : list nat := [8; 10; 16; 20; 32; 34; 40; 42]%nat.

Definition invalid_key_id : exn := ValueError "no or invalid key id".

Definition normalize (key_id : option string) : result string :=
  match key_id with
  | None => Err invalid_key_id
  | Some k =>
      if negb (existsb (Nat.eqb (Str.len k)) key_id_lengths)
      then Err invalid_key_id
      else if negb (Str.startswith k "0x")
           then Ok ("0x" ++ k)
           else Ok k
  end.

Open Scope Z_scope.

(** ** [int(s)] for a decimal literal

    The literal grammar of [int]: optional white space on both sides (tab
    to carriage return, the space, and of the characters above 127 the next
    line U+0085 and the no-break space U+00A0), an optional sign, then
    decimal digits, single underscores allowed between digits.  Anything else
    raises [ValueError], and so does a literal of more than 4300 digits (the
    default limit of the interpreter). *)

Definition invalid_literal : exn := ValueError "invalid literal for int()".

Definition too_many_digits : exn :=
  ValueError "Exceeds the limit (4300 digits) for integer string conversion".

Definition max_str_digits : nat := 4300.

Definition is_space (c : ascii) : bool :=
  let n := nat_of_ascii c in
  ((9 <=? n) && (n <=? 13) || (n =? 32) || (n =? 133) || (n =? 160))%nat.

Definition is_digit (c : ascii) : bool :=
  let n := nat_of_ascii c in ((48 <=? n) && (n <=? 57))%nat.

Definition digit_val (c : ascii) : Z := Z.of_nat (nat_of_ascii c) - 48.

Fixpoint lstrip (s : string) : string :=
  match s with
  | String c s' => if is_space c then lstrip s' else s
  | EmptyString => EmptyString
  end.

Fixpoint rstrip (s : string) : string :=
  match s with
  | String c s' =>
      let r := rstrip s' in
      if is_space c && String.eqb r EmptyString then EmptyString
      else String c r
  | EmptyString => EmptyString
  end.

Fixpoint digits (acc : Z) (after_digit : bool) (s : string) : option Z :=
  match s with
  | EmptyString => if after_digit then Some acc else None
  | String c s' =>
      if is_digit c then digits (10 * acc + digit_val c) true s'
      else if Ascii.eqb c "_" && after_digit then digits acc false s'
      else None
  end.

(** The number of digit characters, underscores and sign left aside. *)
Fixpoint count_digits (s : string) : nat :=
  match s with
  | EmptyString => O
  | String c s' => if is_digit c then S (count_digits s') else count_digits s'
  end.

Definition int (s : string) : result Z :=
  let t := rstrip (lstrip s) in
  let signed :=
    match t with
    | String "-" r => option_map Z.opp (digits 0 false r)
    | String "+" r => digits 0 false r
    | _ => digits 0 false t
    end in
  match signed with
  | Some z =>
      if (max_str_digits <? count_digits t)%nat then Err too_many_digits
      else Ok z
  | None => Err invalid_literal
  end.

(** ** [datetime.utcfromtimestamp] on an integer

    The naive UTC date and time of a count of seconds since 1970-01-01; the
    microsecond field is 0 for an integer argument and is left out.  Years
    outside 1..9999 are refused. *)

Record datetime : Type := mk_datetime {
  year : Z; month : Z; day : Z; hour : Z; minute : Z; second : Z
}.

(** Gregorian date of a day count relative to 1970-01-01. *)
Definition civil_of_days (days : Z) : Z * Z * Z :=
  let z := days + 719468 in          (* days since 0000-03-01 *)
  let era := z / 146097 in           (* 400-year cycle *)
  let doe := z mod 146097 in         (* day of the cycle *)
  let yoe := (doe - doe / 1460 + doe / 36524 - doe / 146096) / 365 in
  let doy := doe - (365 * yoe + yoe / 4 - yoe / 100) in
  let mp := (5 * doy + 2) / 153 in   (* month counted from March *)
  let d := doy - (153 * mp + 2) / 5 + 1 in
  let m := if mp <? 10 then mp + 3 else mp - 9 in
  let y := yoe + era * 400 + (if m <=? 2 then 1 else 0) in
  (y, m, d).

Definition utcfromtimestamp (t : Z) : result datetime :=
  let '(y, m, d) := civil_of_days (t / 86400) in
  let sod := t mod 86400 in
  if (1 <=? y) && (y <=? 9999)
  then Ok (mk_datetime y m d (sod / 3600) (sod mod 3600 / 60) (sod mod 60))
  else Err DateRangeError.

(** ** [lookup_pubkey_algorithm] *)

Definition public_key_algorithms : gmap Z string :=
  list_to_map
    [ (1,  "RSA Encrypt or Sign");
      (2,  "RSA Encrypt-Only");
      (3,  "RSA Sign-Only");
      (16, "ElGamal Encrypt-Only");
      (17, "DSA");
      (18, "Elliptic Curve");
      (19, "ECDSA");
      (20, "Formerly ElGamal Encrypt or Sign");
      (21, "Diffie-Hellman") ]%Z.

Definition lookup_pubkey_algorithm (alg : Z) : string :=
  if (100 <=? alg) && (alg <=? 110)
  then "Private/Experimental algorithm"
  else default "Unknown" (public_key_algorithms !! alg).

(** ** [_parse_index] *)

(** The dictionary stored under ['primary_key'] once a key line was read. *)
Record primary : Type := mk_primary {
  key_id : string;
  algorithm_id : Z;
  algorithm : string;
  key_length : Z;
  creation : option datetime;
  expiration : option datetime;
  revoked : bool;
  disabled : bool;
  expired : bool
}.

(** One element of ['user_ids']. *)
Record uid : Type := mk_uid {
  user_id : string;
  uid_creation : option datetime;
  uid_expiration : option datetime;
  uid_revoked : bool;
  uid_disabled : bool;
  uid_expired : bool
}.

(** [key_dict]; [primary_key = None] is the empty dictionary [{}] the source
    starts from. *)
Record key_dict : Type := mk_key_dict {
  primary_key : option primary;
  user_ids : list uid
}.

Definition convert_date_if_set (date : string) : result (option datetime) :=
  if negb (String.eqb date "")
  then let* n := int date in
       let* d := utcfromtimestamp n in
       Ok (Some d)
  else Ok None.

(** Monadic left fold: a [for] loop whose body may raise. *)
Fixpoint for_each {A S : Type} (body : S -> A -> result S) (l : list A) (st : S)
  : result S :=
  match l with
  | [] => Ok st
  | x :: rest =>
      let* st' := body st x in
      for_each body rest st'
  end.

(** The right-hand side of [key_dict['primary_key'] = {...}] (lines 98-109),
    its entries evaluated in the order they are written. *)
Definition primary_of (value : list string) : result primary :=
  let* v1 := getitem value 1 in
  let* v2 := getitem value 2 in
  let* alg_id := int v2 in
  let* v2' := getitem value 2 in
  let* alg := int v2' in
  let name := lookup_pubkey_algorithm alg in
  let* v3 := getitem value 3 in
  let* klen := int v3 in
  let* v4 := getitem value 4 in
  let* cre := convert_date_if_set v4 in
  let* v5 := getitem value 5 in
  let* exp := convert_date_if_set v5 in
  let* f1 := getitem value 6 in
  let* f2 := getitem value 6 in
  let* f3 := getitem value 6 in
  Ok (mk_primary v1 alg_id name klen cre exp
        (Str.contains "r" f1) (Str.contains "d" f2) (Str.contains "e" f3)).

(** The dictionary [uid] (lines 114-121). *)
Definition uid_of (value : list string) : result uid :=
  let* v0 := getitem value 0 in
  let* v1 := getitem value 1 in
  let* cre := convert_date_if_set v1 in
  let* v2 := getitem value 2 in
  let* exp := convert_date_if_set v2 in
  let* f1 := getitem value 3 in
  let* f2 := getitem value 3 in
  let* f3 := getitem value 3 in
  Ok (mk_uid v0 cre exp
        (Str.contains "r" f1) (Str.contains "d" f2) (Str.contains "e" f3)).

(** Body of the inner loop (lines 94-122) for one piece [value] of the
    segment, before it is split on the colon. *)
Definition parse_value (kd : key_dict) (value : string) : result key_dict :=
  let value := Str.split value ":" in
  if (4 <? length value)%nat
  then let* p := primary_of value in
       Ok (mk_key_dict (Some p) (user_ids kd))
  else let* u := uid_of value in
       Ok (mk_key_dict (primary_key kd) (user_ids kd ++ [u])%list).

Definition empty_key_dict : key_dict := mk_key_dict None [].

(** Lines 87-122 for one segment that is not the info line. *)
Definition parse_key (key_str : string) : result key_dict :=
  for_each parse_value (Str.split key_str "uid:") empty_key_dict.

(** Body of the outer loop (lines 82-123). *)
Definition parse_segment (keys : list key_dict) (key_str : string)
  : result (list key_dict) :=
  if Str.startswith key_str "info" then Ok keys
  else let* kd := parse_key key_str in
       Ok (keys ++ [kd])%list.

Definition LF : ascii := ascii_of_nat 10.
Definition CR : ascii := ascii_of_nat 13.

Definition strip_newlines (s : string) : string :=
  Str.remove_char CR (Str.remove_char LF s).

Definition _parse_index (mr_keyserver_answer : string)
  : result (list key_dict) :=
  let mr_keyserver_answer := strip_newlines mr_keyserver_answer in
  let keys_split := Str.split mr_keyserver_answer "pub" in
  for_each parse_segment keys_split [].

(** A body made of lines, each ended by a line feed. *)
Definition lines (l : list string) : string :=
  String.concat "" (map (fun s => s ++ String LF "") l).

(** ** [_parse_options]

    [ops] is a Python [set]; the order in which [','.join] walks it is not
    fixed by the language (it follows the hashes of the strings).  [SetOrder]
    stands for one such order: any enumeration of the elements, each once. *)

Class SetOrder : Type := {
  iter : gset string -> list string;
  iter_perm : forall s : gset string, iter s ≡ₚ elements s
}.

(** [ops.add(x)] *)
Definition set_add (x : string) (ops : gset string) : gset string :=
  {[ x ]} ∪ ops.

(** Body of the loop of lines 141-143. *)
Definition add_option (ops : gset string) (option : option string)
  : result (gset string) :=
  match option with
  | None => Err AttributeError
  | Some o =>
      if String.eqb o "nm" || Str.startswith o "x-"
      then Ok (set_add o ops)
      else Ok ops
  end.

Section Requests.

Context {order : SetOrder}.

(** [options] is [None] or a tuple whose elements are strings or [None]. *)
Definition _parse_options (options : option (list (option string)))
  : result string :=
  let ops := set_add "mr" ∅ in
  let* ops :=
    match options with
    | None => Ok ops
    | Some opts =>
        let* first := getitem opts 0 in
        match first with
        | None => Ok ops
        | Some _ => for_each add_option opts ops
        end
    end in
  Ok (Str.join "," (iter ops)).

(** ** The parameter dictionaries *)

(** [retrieve], lines 160-174. *)
Definition retrieve_params (key_id : option string)
    (options : option (list (option string))) : result (gmap string string) :=
  let* key_id := normalize key_id in
  let* opts := _parse_options options in
  Ok (<["options" := opts]> (<["op" := "get"]> (<["search" := key_id]> ∅))).

Definition operation_not_allowed : exn := ValueError "operation not allowed".

(** Body of the loop of lines 238-240; [var] is a pair of strings or [None]. *)
Definition add_variable (params : gmap string string)
    (var : option (string * string)) : result (gmap string string) :=
  match var with
  | None => Err TypeError
  | Some (name, val) =>
      if Str.startswith name "x-" then Ok (<[name := val]> params)
      else Ok params
  end.

(** The dictionary literal of lines 230-235. *)
Definition search_base (query operation exact opts : string)
  : gmap string string :=
  <["exact" := if String.eqb exact "on" || String.eqb exact "off"
               then exact else "off"]>
    (<["options" := opts]> (<["op" := operation]> (<["search" := query]> ∅))).

(** [search], lines 227-240. *)
Definition search_params (query operation exact : string)
    (options : option (list (option string)))
    (other_variables : list (option (string * string)))
  : result (gmap string string) :=
  if negb (String.eqb operation "index")
     && negb (Str.startswith operation "x-")
  then Err operation_not_allowed
  else
    let* opts := _parse_options options in
    let params := search_base query operation exact opts in
    let* first := getitem other_variables 0 in
    match first with
    | None => Ok params
    | Some _ => for_each add_variable other_variables params
    end.

Definition no_keys_given : exn := ValueError "no key(s) given".

(** [submit], lines 263-269. *)
Definition submit_params (keys : option string)
    (options : option (list (option string))) : result (gmap string string) :=
  match keys with
  | None => Err no_keys_given
  | Some k =>
      let* opts := _parse_options options in
      Ok (<["options" := opts]> (<["keytext" := k]> ∅))
  end.

End Requests.

(** The order of [elements] is one possible iteration order. *)
#[export] Instance elements_order : SetOrder :=
  {| iter := elements; iter_perm := fun s => reflexivity (elements s) |}.

(** ** Vocabulary for statements about [_parse_index] *)

(** The segments the outer loop does not skip. *)
Definition segments (body : string) : list string :=
  List.filter (fun seg => negb (Str.startswith seg "info"))
              (Str.split (strip_newlines body) "pub").


Definition fields (piece : string) : list string := Str.split piece ":".



(** ** Vocabulary for statements about the requests *)

(** The options the loop of [_parse_options] keeps. *)
Definition kept (o : string) : bool :=
  String.eqb o "nm" || Str.startswith o "x-".

(** [params[name] = val] for a pair of the extra variables, and the test of
    line 239. *)
Definition set_variable (params : gmap string string) (var : string * string)
  : gmap string string :=
  <[var.1 := var.2]> params.

Definition is_extension (var : string * string) : bool :=
  Str.startswith var.1 "x-".

(** The error raised, if any, satisfies [P]. *)
Definition fails_only {A : Type} (P : exn -> Prop) (r : result A) : Prop :=
  match r with
  | Ok _ => True
  | Err e => P e
  end.

(** ** Vocabulary for the further properties *)

(** The test of line 95 on a piece: more than four colon-delimited fields. *)
Definition is_key_piece (piece : string) : bool :=
  (4 <? length (fields piece))%nat.

(** A field without a colon in it. *)
Definition colon_free (field : string) : bool :=
  negb (Str.contains ":" field).

(** The keys of the dictionary literal of [search]. *)
Definition standard_names : list string :=
  ["search"; "op"; "options"; "exact"].

(** The ids of the table inside [lookup_pubkey_algorithm]. *)
Definition table_ids : list Z := [1; 2; 3; 16; 17; 18; 19; 20; 21].

(** * Properties *)

(** ** Key-id normalization *)

Lemma normalize_accepts (k k' : string) :
  normalize (Some k) = Ok k' ->
  existsb (Nat.eqb (Str.len k)) key_id_lengths = true /\
  k' = (if Str.startswith k "0x" then k else "0x" ++ k).
Proof.
  unfold normalize.
  destruct (existsb _ key_id_lengths); [|discriminate].
  destruct (Str.startswith k "0x"); intros H; inversion H; auto.
Qed.

Lemma normalize_prefixed (k : string) :
  existsb (Nat.eqb (Str.len k)) key_id_lengths = true ->
  Str.startswith k "0x" = true ->
  normalize (Some k) = Ok k.
Proof.
  intros Hlen Hpre. unfold normalize. now rewrite Hlen, Hpre.
Qed.

Lemma len_prefixed (k : string) : Str.len ("0x" ++ k) = S (S (Str.len k)).
Proof. reflexivity. Qed.

(** C1 (fails as stated): an id of ten characters without the prefix is
    accepted and prefixed, and the twelve-character result is then refused. *)
Lemma normalize_not_idempotent :
  normalize (Some "ABCDEFGHIJ") = Ok "0xABCDEFGHIJ" /\
  normalize (Some "0xABCDEFGHIJ") = Err invalid_key_id.
Proof. split; reflexivity. Qed.

(** C1 (amended): the result of a successful normalization begins with
    [0x]; when the accepted id already begins with [0x], or has length 8, 32
    or 40, normalizing the result again returns it unchanged; when the
    accepted id has no prefix and length 10, 34 or 42, the prefixed result is
    refused by a second normalization. *)
Theorem normalize_twice (k k' : string) :
  normalize (Some k) = Ok k' ->
  Str.startswith k' "0x" = true /\
  (Str.startswith k "0x" = true \/ In (Str.len k) [8; 32; 40]%nat ->
   normalize (Some k') = Ok k') /\
  (Str.startswith k "0x" = false /\ In (Str.len k) [10; 34; 42]%nat ->
   normalize (Some k') = Err invalid_key_id).
Proof.
  intros Hk. destruct (normalize_accepts _ _ Hk) as [Hlen ->].
  destruct (Str.startswith k "0x") eqn:Hpre.
  - split; [assumption|]. split.
    + intros _. now apply normalize_prefixed.
    + intros [[=] _].
  - split; [reflexivity|]. split.
    + intros [[=]|Hin]. apply normalize_prefixed; [|reflexivity].
      rewrite len_prefixed.
      simpl in Hin. destruct Hin as [<-|[<-|[<-|[]]]]; reflexivity.
    + intros [_ Hin]. unfold normalize. rewrite len_prefixed.
      simpl in Hin. destruct Hin as [<-|[<-|[<-|[]]]]; reflexivity.
Qed.

Lemma normalize_twice_witness :
  normalize (Some "0x2D230C5F") = Ok "0x2D230C5F" /\
  Str.startswith "0x2D230C5F" "0x" = true /\
  normalize (Some "2D230C5F") = Ok "0x2D230C5F".
Proof.
  pose proof (normalize_twice "2D230C5F" "0x2D230C5F" eq_refl) as [H1 [H2 _]].
  split; [apply H2; right; simpl; auto|]. split; [exact H1|reflexivity].
Defined.

(** ** Strings *)

Lemma append_cons (a : ascii) (s t : string) :
  String a s ++ t = String a (s ++ t).
Proof. reflexivity. Qed.

Lemma append_empty_r (s : string) : s ++ "" = s.
Proof.
  induction s as [|a s IH]; [reflexivity|].
  now rewrite append_cons, IH.
Qed.

Lemma append_snoc (cur : string) (c : ascii) (s : string) :
  (cur ++ String c "") ++ s = cur ++ String c s.
Proof.
  induction cur as [|a cur IH]; [reflexivity|].
  now rewrite !append_cons, IH.
Qed.

Lemma contains_cons (sub : string) (c : ascii) (s : string) :
  Str.contains sub (String c s) = false ->
  Str.startswith (String c s) sub = false /\ Str.contains sub s = false.
Proof.
  cbn [Str.contains].
  destruct (Str.startswith (String c s) sub); [discriminate|auto].
Qed.

(** Without an occurrence of the separator, [split] returns the whole
    string as its only piece. *)
Lemma split_go_absent (sep : string) (s cur : string) :
  Str.contains sep s = false ->
  Str.split_go sep 0 cur s = [cur ++ s].
Proof.
  revert cur. induction s as [|c s IH]; intros cur Habs.
  - now rewrite append_empty_r.
  - apply contains_cons in Habs as [Hpre Habs].
    cbn [Str.split_go]. rewrite Hpre, (IH _ Habs).
    now rewrite append_snoc.
Qed.

Lemma split_absent (sep s : string) :
  Str.contains sep s = false -> Str.split s sep = [s].
Proof. intros H. unfold Str.split. now rewrite split_go_absent. Qed.

Lemma startswith_spec (s p : string) :
  Str.startswith s p = true <-> exists t, s = p ++ t.
Proof.
  revert s. induction p as [|b p IH]; intros s; cbn [Str.startswith].
  - split; [intros _; now exists s|reflexivity].
  - destruct s as [|a s].
    + split; [discriminate|]. intros [t Ht]. discriminate Ht.
    + destruct (Ascii.eqb_spec a b) as [->|Hab].
      * rewrite IH. split; intros [t Ht]; exists t.
        -- now rewrite append_cons, Ht.
        -- rewrite append_cons in Ht. now injection Ht.
      * split; [discriminate|]. intros [t Ht].
        rewrite append_cons in Ht. injection Ht as Ha _. contradiction.
Qed.

(** [contains] is the substring test. *)
Lemma contains_spec (sub s : string) :
  Str.contains sub s = true <-> exists a b, s = a ++ sub ++ b.
Proof.
  induction s as [|c s IH].
  - cbn [Str.contains].
    destruct (Str.startswith "" sub) eqn:Hpre.
    + split; [intros _|reflexivity].
      apply startswith_spec in Hpre as [t Ht]. now exists "", t.
    + split; [discriminate|]. intros [a [b Hab]].
      destruct a; [|discriminate Hab].
      assert (Str.startswith "" sub = true) by (apply startswith_spec; eauto).
      congruence.
  - cbn [Str.contains].
    destruct (Str.startswith (String c s) sub) eqn:Hpre.
    + split; [intros _|reflexivity].
      apply startswith_spec in Hpre as [t Ht]. now exists "", t.
    + rewrite IH. split; intros [a [b Hab]].
      * exists (String c a), b. now rewrite append_cons, Hab.
      * destruct a as [|a0 a].
        -- assert (Str.startswith (String c s) sub = true)
             by (apply startswith_spec; eauto).
           congruence.
        -- rewrite append_cons in Hab. injection Hab as _ Hs. eauto.
Qed.

Lemma split_go_skip (sep r s cur : string) :
  Str.split_go sep (Str.len r) cur (r ++ s) = Str.split_go sep 0 cur s.
Proof.
  induction r as [|a r IH]; [reflexivity|].
  rewrite append_cons. cbn [Str.len String.length Str.split_go]. exact IH.
Qed.

(** At an occurrence of the separator a piece ends and the scan resumes
    after the separator. *)
Lemma split_go_match (sep s cur : string) :
  sep <> "" ->
  Str.split_go sep 0 cur (sep ++ s) = cur :: Str.split_go sep 0 "" s.
Proof.
  intros Hsep. destruct sep as [|b sep]; [contradiction|].
  rewrite append_cons. cbn [Str.split_go].
  replace (Str.startswith (String b (sep ++ s)) (String b sep)) with true.
  - cbn [Str.len String.length]. rewrite Nat.sub_1_r. cbn [Nat.pred].
    f_equal. apply split_go_skip.
  - symmetry. apply startswith_spec. exists s. now rewrite append_cons.
Qed.

Lemma split_go_cons (sep : string) (cur : string) (s : string) :
  exists piece rest, Str.split_go sep 0 cur s = piece :: rest.
Proof.
  revert cur. induction s as [|c s IH]; intros cur; cbn [Str.split_go]; eauto.
  destruct (Str.startswith (String c s) sep); eauto.
Qed.

Lemma len_append (s t : string) : Str.len (s ++ t) = (Str.len s + Str.len t)%nat.
Proof.
  induction s as [|a s IH]; [reflexivity|].
  rewrite append_cons. cbn [Str.len String.length plus]. now f_equal.
Qed.

(** Joining the pieces of a split with the separator gives the string
    back. *)
Lemma join_split_go (sep : string) (n : nat) :
  sep <> "" ->
  forall s cur, (Str.len s < n)%nat ->
    Str.join sep (Str.split_go sep 0 cur s) = cur ++ s.
Proof.
  intros Hsep. induction n as [|n IH]; intros s cur Hlen; [lia|].
  destruct s as [|c s]; [cbn; now rewrite append_empty_r|].
  destruct (Str.startswith (String c s) sep) eqn:Hpre.
  - apply startswith_spec in Hpre as [t Ht]. rewrite Ht.
    rewrite (split_go_match _ _ _ Hsep).
    destruct (split_go_cons sep "" t) as [piece [rest Hsplit]].
    assert (Hrec : Str.join sep (Str.split_go sep 0 "" t) = "" ++ t).
    { apply IH. rewrite Ht, len_append in Hlen.
      destruct sep; [contradiction|].
      unfold Str.len in *. cbn [String.length] in Hlen. lia. }
    rewrite Hsplit in *. cbn [Str.join]. cbn [Str.join] in Hrec.
    now rewrite Hrec.
  - cbn [Str.split_go]. rewrite Hpre. rewrite IH.
    + apply append_snoc.
    + unfold Str.len in *. cbn [String.length] in Hlen. lia.
Qed.

Lemma join_split (s sep : string) :
  sep <> "" -> Str.join sep (Str.split s sep) = s.
Proof.
  intros Hsep. unfold Str.split.
  now rewrite (join_split_go sep (S (Str.len s)) Hsep) by lia.
Qed.

(** ** Loops that may raise *)


Lemma for_each_fails_only {A S : Type} (P : exn -> Prop)
    (body : S -> A -> result S) (l : list A) :
  (forall x, In x l -> forall st, fails_only P (body st x)) ->
  forall st, fails_only P (for_each body l st).
Proof.
  induction l as [|a l IH]; intros Hall st; [exact I|].
  cbn [for_each].
  pose proof (Hall a (or_introl eq_refl) st) as Ha.
  destruct (body st a) as [st'|e]; cbn [bind]; [|exact Ha].
  apply IH. intros x Hx. apply Hall. now right.
Qed.

(** ** The index parser *)







(** C2: the body [info:1:1] followed by the key line
    [pub:AABBCCDD:17:2048:1136214245::], with the lines ended by LF, by CR LF
    or not at all, parses to exactly one record: no identities, key id
    AABBCCDD, algorithm 17 named DSA, length 2048, creation the UTC date of
    timestamp 1136214245 (2006-01-02 15:04:05), no expiration, and the three
    flags false. *)
Theorem parse_index_single_key :
  exists d : datetime,
    utcfromtimestamp 1136214245 = Ok d /\
    d = mk_datetime 2006 1 2 15 4 5 /\
    Forall
      (fun body =>
         _parse_index body =
         Ok [ mk_key_dict
                (Some (mk_primary "AABBCCDD" 17 "DSA" 2048 (Some d) None
                                  false false false))
                [] ])
      [ lines ["info:1:1"; "pub:AABBCCDD:17:2048:1136214245::"];
        "info:1:1" ++ String CR (String LF "")
          ++ "pub:AABBCCDD:17:2048:1136214245::" ++ String CR (String LF "");
        "info:1:1" ++ "pub:AABBCCDD:17:2048:1136214245::" ].
Proof.
  eexists. split; [reflexivity|]. split; [reflexivity|].
  repeat constructor.
Qed.

(** C3 (fails as stated): the empty body raises [IndexError]; it has no
    [pub] in it. *)
Lemma parse_index_empty_body :
  Str.contains "pub" (strip_newlines "") = false /\
  _parse_index "" = Err IndexError.
Proof. split; reflexivity. Qed.

(** C3 (amended): a body that, once CR and LF are removed, has no [pub] in
    it and begins with [info] parses to the empty list; a body with no [pub]
    that does not begin with [info], such as the empty body, never parses to
    the empty list. *)
Theorem parse_index_no_keys (body : string) :
  Str.contains "pub" (strip_newlines body) = false ->
  (Str.startswith (strip_newlines body) "info" = true ->
   _parse_index body = Ok []) /\
  (Str.startswith (strip_newlines body) "info" = false ->
   _parse_index body <> Ok []).
Proof.
  intros Habs. unfold _parse_index. rewrite (split_absent _ _ Habs).
  cbn [for_each]. unfold parse_segment. split; intros ->.
  - reflexivity.
  - destruct (parse_key (strip_newlines body)); cbn [bind app]; discriminate.
Qed.

Lemma parse_index_no_keys_witness :
  _parse_index (lines ["info:1:0"]) = Ok [] /\ _parse_index "" <> Ok [].
Proof.
  split.
  - apply (parse_index_no_keys (lines ["info:1:0"])); reflexivity.
  - apply (parse_index_no_keys ""); reflexivity.
Defined.




(** C5: the identity block [uid:Jane Doe <jane@example.org>:0::e] gives the
    identity with that user id, [expired] true, [revoked] and [disabled]
    false, no expiration, and as creation the date of timestamp 0
    (1970-01-01 00:00:00), both as a block on its own and as the only
    identity of a key. *)
Theorem parse_index_identity_block :
  exists epoch : datetime,
    utcfromtimestamp 0 = Ok epoch /\
    epoch = mk_datetime 1970 1 1 0 0 0 /\
    let jane :=
      mk_uid "Jane Doe <jane@example.org>" (Some epoch) None false false true in
    uid_of (fields "Jane Doe <jane@example.org>:0::e") = Ok jane /\
    (forall kd, parse_value kd "Jane Doe <jane@example.org>:0::e"
                = Ok (mk_key_dict (primary_key kd) (user_ids kd ++ [jane]))) /\
    fmap_result user_ids
      (_parse_index
         (lines [ "info:1:1"; "pub:AABBCCDD:17:2048:1136214245::";
                  "uid:Jane Doe <jane@example.org>:0::e" ]))
    = Ok [[jane]].
Proof.
  eexists. split; [reflexivity|]. split; [reflexivity|].
  repeat split; reflexivity.
Qed.

(** ** The option encoder *)

Section RequestProperties.

Context {order : SetOrder}.

Lemma iter_elem (t : string) (s : gset string) : In t (iter s) <-> t ∈ s.
Proof.
  rewrite <- list_elem_of_In, (iter_perm s). apply elem_of_elements.
Qed.

Lemma iter_NoDup (s : gset string) : NoDup (iter s).
Proof. rewrite (iter_perm s). apply NoDup_elements. Qed.

Lemma iter_singleton (x : string) : iter {[ x ]} = [x].
Proof.
  apply Permutation_singleton_r. rewrite (iter_perm {[ x ]}).
  now rewrite elements_singleton.
Qed.

Lemma for_each_add_option (l : list string) (ops : gset string) :
  for_each add_option (map Some l) ops
  = Ok (ops ∪ list_to_set (List.filter kept l)).
Proof.
  revert ops. induction l as [|o l IH]; intros ops; cbn [map for_each List.filter].
  - f_equal. set_solver.
  - cbn [add_option]. fold (kept o). destruct (kept o); cbn [bind];
      rewrite IH; f_equal; unfold set_add; set_solver.
Qed.

Lemma parse_options_strings (o : string) (l : list string) :
  _parse_options (Some (map Some (o :: l)))
  = Ok (Str.join "," (iter ({[ "mr" ]} ∪ list_to_set (List.filter kept (o :: l))))).
Proof.
  unfold _parse_options. cbn [map getitem nth_error bind].
  rewrite <- (map_cons Some o l), for_each_add_option. cbn [bind].
  reflexivity.
Qed.

Lemma parse_options_none : _parse_options None = Ok "mr".
Proof.
  unfold _parse_options, set_add. cbn [bind].
  replace ({[ "mr" ]} ∪ ∅ : gset string) with ({[ "mr" ]} : gset string)
    by set_solver.
  now rewrite iter_singleton.
Qed.

Lemma parse_options_default : _parse_options (Some [None]) = Ok "mr".
Proof. exact parse_options_none. Qed.

Lemma parse_options_fails_only (options : option (list (option string))) :
  fails_only (fun e => e = IndexError \/ e = AttributeError)
             (_parse_options options).
Proof.
  unfold _parse_options.
  destruct options as [[|[o|] opts]|]; cbn [getitem nth_error bind fails_only];
    auto.
  match goal with
  | |- context [for_each ?b ?l ?s] =>
      pose proof (for_each_fails_only
                    (fun e => e = IndexError \/ e = AttributeError) b l) as H;
      specialize (fun Hb => H Hb s)
  end.
  destruct (for_each _ _ _); cbn [bind fails_only] in *; auto.
  apply H. intros [x|] _ st; cbn [add_option fails_only]; auto.
  destruct (_ || _); exact I.
Qed.

(** X17: for a non-empty sequence of option strings the encoded
    string is the comma-join of a duplicate-free list of tokens that contains
    [mr] and otherwise exactly the supplied tokens equal to [nm] or beginning
    with [x-]; the encoding of [('foo', 'bar')] is [mr]. *)
Theorem parse_options_tokens (options : list string) :
  (options <> [] ->
   exists tokens : list string,
     _parse_options (Some (map Some options)) = Ok (Str.join "," tokens) /\
     NoDup tokens /\
     In "mr" tokens /\
     forall t, In t tokens <->
               t = "mr" \/
               (In t options /\ (t = "nm" \/ Str.startswith t "x-" = true))) /\
  _parse_options (Some [Some "foo"; Some "bar"]) = Ok "mr".
Proof.
  split.
  - destruct options as [|o l]; [congruence|]. intros _.
    eexists. split; [apply parse_options_strings|].
    split; [apply iter_NoDup|].
    assert (Hmem : forall t,
               In t (iter ({[ "mr" ]} ∪ list_to_set (List.filter kept (o :: l))))
               <-> t = "mr" \/
                   (In t (o :: l) /\ (t = "nm" \/ Str.startswith t "x-" = true))).
    { intros t. rewrite iter_elem, elem_of_union, elem_of_singleton.
      rewrite elem_of_list_to_set, list_elem_of_In, filter_In.
      unfold kept. rewrite orb_true_iff, String.eqb_eq. reflexivity. }
    split; [apply Hmem; now left|exact Hmem].
  - change [Some "foo"; Some "bar"] with (map Some ["foo"; "bar"]).
    rewrite parse_options_strings. cbn [List.filter kept].
    replace ({[ "mr" ]} ∪ list_to_set (List.filter kept ["foo"; "bar"]) : gset string)
      with ({[ "mr" ]} : gset string)
      by (vm_compute List.filter; set_solver).
    now rewrite iter_singleton.
Qed.

(** The encoder returns a string for every non-empty sequence of option
    strings, and returns [mr] when [options] is [None] or the default
    [(None,)]. *)
Theorem parse_options_total (options : list string) :
  (options <> [] ->
   exists s : string, _parse_options (Some (map Some options)) = Ok s) /\
  _parse_options None = Ok "mr" /\
  _parse_options (Some [None]) = Ok "mr".
Proof.
  split; [|split; [apply parse_options_none|apply parse_options_default]].
  destruct options as [|o l]; [congruence|]. intros _.
  eexists. apply parse_options_strings.
Qed.

End RequestProperties.

(** C6: on the empty tuple the encoder gives no option string at all, where
    the claim asks for the comma-join of a token list containing [mr], which
    is what [None] and [(None,)] give. *)
Lemma parse_options_empty_no_tokens :
  ~ exists tokens : list string,
      _parse_options (Some (map Some [])) = Ok (Str.join "," tokens).
Proof. intros [tokens H]. discriminate H. Qed.

Lemma parse_options_tokens_witness :
  ["nm"; "x-d"; "foo"; "nm"] <> [] /\
  exists tokens : list string,
    _parse_options (Some (map Some ["nm"; "x-d"; "foo"; "nm"]))
    = Ok (Str.join "," tokens) /\
    NoDup tokens /\ In "mr" tokens.
Proof.
  split; [discriminate|].
  destruct (parse_options_tokens ["nm"; "x-d"; "foo"; "nm"]) as [H _].
  destruct (H ltac:(discriminate)) as [tokens [H1 [H2 [H3 _]]]].
  exists tokens. auto.
Defined.

(** C7: on the empty tuple the encoder raises [IndexError] at
    [options[0]], where the claim asks for a string. *)
Lemma parse_options_empty_raises :
  _parse_options (Some []) = Err IndexError.
Proof. reflexivity. Qed.

Lemma parse_options_total_witness :
  ["x-test"] <> [] /\
  exists s : string, _parse_options (Some (map Some ["x-test"])) = Ok s.
Proof.
  split; [discriminate|].
  apply (parse_options_total ["x-test"]). discriminate.
Defined.

(** ** The parameter dictionaries *)

Section ParameterProperties.

Context {order : SetOrder}.

Lemma for_each_add_variable (vars : list (string * string))
    (params : gmap string string) :
  for_each add_variable (map Some vars) params
  = Ok (fold_left set_variable (List.filter is_extension vars) params).
Proof.
  revert params.
  induction vars as [|[name val] vars IH]; intros params; [reflexivity|].
  cbn [map for_each add_variable List.filter]. unfold is_extension at 1.
  cbn [fst]. destruct (Str.startswith name "x-"); cbn [bind fold_left];
    now rewrite IH.
Qed.

Lemma fold_set_variable_other (vars : list (string * string))
    (params : gmap string string) (name : string) :
  (forall val, ~ In (name, val) vars) ->
  fold_left set_variable vars params !! name = params !! name.
Proof.
  revert params. induction vars as [|[n v] vars IH]; intros params Hno;
    [reflexivity|].
  cbn [fold_left]. rewrite IH.
  - unfold set_variable. cbn [fst snd]. apply lookup_insert_ne.
    intros ->. apply (Hno v). now left.
  - intros val Hin. apply (Hno val). now right.
Qed.

Lemma fold_set_variable_last (pre post : list (string * string))
    (params : gmap string string) (name val : string) :
  (forall v, ~ In (name, v) post) ->
  fold_left set_variable (pre ++ (name, val) :: post) params !! name
  = Some val.
Proof.
  intros Hno. rewrite fold_left_app. cbn [fold_left].
  rewrite fold_set_variable_other by exact Hno.
  unfold set_variable. cbn [fst snd]. apply lookup_insert_eq.
Qed.

Lemma search_fails_only (query operation exact : string)
    (options : option (list (option string)))
    (other_variables : list (option (string * string))) :
  (String.eqb operation "index" = true \/
   Str.startswith operation "x-" = true) ->
  fails_only (fun e => e = IndexError \/ e = AttributeError \/ e = TypeError)
             (search_params query operation exact options other_variables).
Proof.
  intros Hop. unfold search_params.
  replace (negb (String.eqb operation "index")
           && negb (Str.startswith operation "x-")) with false
    by (destruct Hop as [-> | ->]; cbn [negb andb];
        now rewrite ?andb_false_r).
  pose proof (parse_options_fails_only options) as Hopts.
  destruct (_parse_options options) as [opts|e]; cbn [bind fails_only] in *;
    [|tauto].
  destruct other_variables as [|[var|] vars];
    cbn [getitem nth_error bind fails_only]; auto.
  apply for_each_fails_only. intros [[n v]|] _ st;
    cbn [add_variable fails_only]; auto.
  destruct (Str.startswith n "x-"); exact I.
Qed.

(** C8: building the search parameters raises the [ValueError] of line 228
    exactly when the operation is neither [index] nor begins with [x-], and
    then no dictionary is returned; [y-bad] is refused, [x-custom] with the
    default options and variables gives the dictionary of lines 230-235. *)
Theorem search_operation_check (query operation exact : string)
    (options : option (list (option string)))
    (other_variables : list (option (string * string))) :
  (search_params query operation exact options other_variables
   = Err operation_not_allowed
   <-> operation <> "index" /\ Str.startswith operation "x-" = false) /\
  search_params query "y-bad" exact options other_variables
  = Err operation_not_allowed /\
  search_params query "x-custom" exact (Some [None]) [None]
  = Ok (search_base query "x-custom" exact "mr").
Proof.
  split; [|split].
  - split.
    + intros Hraise.
      destruct (String.eqb operation "index") eqn:Hidx;
        [|destruct (Str.startswith operation "x-") eqn:Hx].
      * pose proof (search_fails_only query operation exact options
                      other_variables (or_introl Hidx)) as H.
        rewrite Hraise in H. cbn in H. intuition discriminate.
      * pose proof (search_fails_only query operation exact options
                      other_variables (or_intror Hx)) as H.
        rewrite Hraise in H. cbn in H. intuition discriminate.
      * split; [now apply String.eqb_neq|reflexivity].
    + intros [Hidx Hx]. unfold search_params.
      apply String.eqb_neq in Hidx. now rewrite Hidx, Hx.
  - reflexivity.
  - unfold search_params. cbn [String.eqb Str.startswith negb andb].
    replace (negb ("x-custom" =? "index")%string && negb (Str.startswith "x-custom" "x-"))
      with false by reflexivity.
    now rewrite parse_options_default.
Qed.

(** C9: [submit] raises the [ValueError] of line 264 exactly when [keys] is
    [None]; for a payload that is present, the empty string included, the
    dictionary is [{keytext: payload, options: encoded options}], the second
    entry being what [_parse_options] returns. *)
Theorem submit_keys_check (keys : option string)
    (options : option (list (option string))) :
  (submit_params keys options = Err no_keys_given <-> keys = None) /\
  (forall payload : string,
     submit_params (Some payload) options
     = rmap (fun opts => <["options" := opts]> (<["keytext" := payload]> ∅))
            (_parse_options options)) /\
  submit_params (Some "") (Some [None])
  = Ok (<["options" := "mr"]> (<["keytext" := ""]> ∅)).
Proof.
  split; [|split].
  - split; [|now intros ->].
    destruct keys as [k|]; [|reflexivity]. cbn [submit_params].
    pose proof (parse_options_fails_only options) as H.
    destruct (_parse_options options); cbn [bind fails_only] in *;
      [discriminate|].
    intros [= ->]. destruct H; discriminate.
  - reflexivity.
  - cbn [submit_params]. now rewrite parse_options_default.
Qed.

(** C10: when [search] is given extra (name, value) pairs, an allowed
    operation and options that encode, it returns the dictionary of lines
    230-235 with the pairs whose name begins with [x-] stored in the order
    given; a pair with another name changes nothing and raises nothing, and
    under a name beginning with [x-] the dictionary holds the value of the
    last pair with that name. *)
Theorem search_extra_variables (query operation exact opts : string)
    (options : option (list (option string)))
    (vars : list (string * string)) :
  vars <> [] ->
  operation = "index" \/ Str.startswith operation "x-" = true ->
  _parse_options options = Ok opts ->
  let base := search_base query operation exact opts in
  exists params : gmap string string,
    search_params query operation exact options (map Some vars) = Ok params /\
    params = fold_left set_variable (List.filter is_extension vars) base /\
    (forall name, Str.startswith name "x-" = false ->
                  params !! name = base !! name) /\
    (forall pre name val post,
        vars = (pre ++ (name, val) :: post)%list ->
        Str.startswith name "x-" = true ->
        (forall v, ~ In (name, v) post) ->
        params !! name = Some val).
Proof.
  intros Hne Hop Hopts base. eexists. split; [|split; [reflexivity|split]].
  - unfold search_params.
    replace (negb (String.eqb operation "index")
             && negb (Str.startswith operation "x-")) with false
      by (destruct Hop as [-> | ->]; cbn [negb andb];
          now rewrite ?andb_false_r).
    rewrite Hopts. cbn [bind]. fold base.
    destruct vars as [|var vars]; [congruence|].
    cbn [map getitem nth_error bind].
    rewrite <- (map_cons Some var vars). apply for_each_add_variable.
  - intros name Hname. apply fold_set_variable_other.
    intros val Hin. apply filter_In in Hin as [_ Hext].
    unfold is_extension in Hext. cbn [fst] in Hext. congruence.
  - intros pre name val post -> Hname Hlast.
    rewrite List.filter_app. cbn [List.filter]. unfold is_extension at 2.
    cbn [fst]. rewrite Hname. apply fold_set_variable_last.
    intros v Hin. apply filter_In in Hin as [Hin _]. now apply (Hlast v).
Qed.

End ParameterProperties.

Lemma search_extra_variables_witness :
  exists params : gmap string string,
    search_params "debian" "index" "off" (Some [None])
      (map Some [("x-a", "1"); ("search", "2"); ("x-a", "3")]) = Ok params /\
    params !! "search" = Some "debian" /\
    params !! "x-a" = Some "3".
Proof.
  destruct (search_extra_variables "debian" "index" "off" "mr" (Some [None])
              [("x-a", "1"); ("search", "2"); ("x-a", "3")])
    as [params [H1 [_ [H3 H4]]]].
  - discriminate.
  - now left.
  - reflexivity.
  - exists params. split; [exact H1|]. split.
    + rewrite H3 by reflexivity. reflexivity.
    + apply (H4 [("x-a", "1"); ("search", "2")] "x-a" "3" []);
        [reflexivity|reflexivity|]. intros v [].
Defined.

(** ** The embedding on the values of the repository's tests *)

Example split_on_pub :
  Str.split "info:1:2pub:A:1:2:3::pub:B:1:2:3::" "pub"
  = ["info:1:2"; ":A:1:2:3::"; ":B:1:2:3::"].
Proof. reflexivity. Qed.

Example split_of_empty : Str.split "" ":" = [""].
Proof. reflexivity. Qed.

Example split_overlapping : Str.split "aaaa" "aa" = [""; ""; ""].
Proof. reflexivity. Qed.

Example int_literals :
  int "2048" = Ok 2048 /\ int " +1_000 " = Ok 1000 /\ int "-007" = Ok (-7) /\
  int "" = Err invalid_literal /\ int "1__0" = Err invalid_literal /\
  int "AABBCCDD" = Err invalid_literal.
Proof. repeat split; reflexivity. Qed.

Example utcfromtimestamp_values :
  utcfromtimestamp 951782400 = Ok (mk_datetime 2000 2 29 0 0 0) /\
  utcfromtimestamp (-1) = Ok (mk_datetime 1969 12 31 23 59 59) /\
  utcfromtimestamp 253402300799 = Ok (mk_datetime 9999 12 31 23 59 59) /\
  utcfromtimestamp 253402300800 = Err DateRangeError /\
  utcfromtimestamp (-62135596800) = Ok (mk_datetime 1 1 1 0 0 0) /\
  utcfromtimestamp (-62135596801) = Err DateRangeError.
Proof. repeat split; reflexivity. Qed.

(** [test_lookup_pub_algorithm] *)
Example test_lookup_pub_algorithm :
  lookup_pubkey_algorithm 109 = "Private/Experimental algorithm" /\
  lookup_pubkey_algorithm 1337 = "Unknown" /\
  lookup_pubkey_algorithm 19 = "ECDSA".
Proof. repeat split; reflexivity. Qed.

(** [test_parse_options], with the order of [elements] *)
Example test_parse_options :
  _parse_options None = Ok "mr" /\
  _parse_options (Some [Some "test"; Some "x-d"]) = Ok "mr,x-d" /\
  (exists s, _parse_options (Some [Some "x-d"; Some "test"; Some "nm";
                                   Some "ab"]) = Ok s /\
             Str.contains "nm" s = true).
Proof. repeat split. eexists. split; reflexivity. Qed.

(** [test_retrieve]: the empty id and a seven-character id are refused. *)
Example test_retrieve :
  normalize (Some "") = Err invalid_key_id /\
  normalize (Some "0x2D230") = Err invalid_key_id /\
  normalize (Some "ABCDEFGH") = Ok "0xABCDEFGH".
Proof. repeat split; reflexivity. Qed.

(** An id of sixteen characters is accepted; with the prefix it has
    eighteen, which is not among the accepted lengths. *)
Example normalize_sixteen :
  normalize (Some "010908312D230C5F") = Ok "0x010908312D230C5F" /\
  normalize (Some "0x010908312D230C5F") = Err invalid_key_id.
Proof. split; reflexivity. Qed.

(** * Further properties *)

(** ** [lookup_pubkey_algorithm] *)

Lemma table_lookup_Some (alg : Z) (name : string) :
  public_key_algorithms !! alg = Some name -> In alg table_ids /\ name <> "".
Proof.
  intros Hl. apply elem_of_list_to_map_2 in Hl.
  repeat (apply elem_of_cons in Hl as [Heq|Hl];
          [inversion Heq; split; [cbn; tauto|discriminate]|]).
  now apply elem_of_nil in Hl.
Qed.

(** X1: every id from 100 to 110 is named private/experimental; an id
    outside that range is named [Unknown] exactly when it is not one of the
    nine ids of the table; no name is empty. *)
Theorem lookup_pubkey_algorithm_cases (alg : Z) :
  (100 <= alg <= 110 ->
   lookup_pubkey_algorithm alg = "Private/Experimental algorithm") /\
  (~ 100 <= alg <= 110 ->
   (lookup_pubkey_algorithm alg = "Unknown" <-> ~ In alg table_ids)) /\
  lookup_pubkey_algorithm alg <> "".
Proof.
  unfold lookup_pubkey_algorithm.
  destruct ((100 <=? alg) && (alg <=? 110)) eqn:Hrange.
  - split; [reflexivity|]. split; [|discriminate].
    apply andb_true_iff in Hrange as [H1 H2]. lia.
  - split; [|split].
    + intros H. apply andb_false_iff in Hrange as [H1|H1]; lia.
    + intros _. destruct (public_key_algorithms !! alg) as [name|] eqn:Hl.
      * destruct (table_lookup_Some _ _ Hl) as [Hin _]. cbn [from_option id].
        split; [|tauto]. intros ->. exfalso. revert Hl.
        cbn in Hin.
        repeat (destruct Hin as [<-|Hin]; [vm_compute; discriminate|]).
        destruct Hin.
      * cbn [from_option id]. split; [|reflexivity]. intros _ Hin.
        revert Hl. cbn in Hin.
        repeat (destruct Hin as [<-|Hin]; [vm_compute; discriminate|]).
        destruct Hin.
    + destruct (public_key_algorithms !! alg) as [name|] eqn:Hl;
        cbn [from_option id]; [|discriminate].
      now destruct (table_lookup_Some _ _ Hl).
Qed.

Lemma lookup_pubkey_algorithm_cases_witness :
  lookup_pubkey_algorithm 105 = "Private/Experimental algorithm" /\
  lookup_pubkey_algorithm 4 = "Unknown".
Proof.
  split.
  - apply (lookup_pubkey_algorithm_cases 105). lia.
  - apply (lookup_pubkey_algorithm_cases 4); [lia|].
    cbn. intros H. repeat (destruct H as [H|H]; [discriminate H|]). exact H.
Defined.

(** ** [retrieve] *)

(** X2: an id of sixteen characters without the prefix is accepted and
    sent with the prefix, while the same id written with the prefix, eighteen
    characters, is refused. *)
Theorem normalize_sixteen_digits (k : string) :
  Str.len k = 16%nat ->
  Str.startswith k "0x" = false ->
  normalize (Some k) = Ok ("0x" ++ k) /\
  normalize (Some ("0x" ++ k)) = Err invalid_key_id.
Proof.
  intros Hlen Hpre. unfold normalize.
  rewrite len_prefixed, Hlen, Hpre. split; reflexivity.
Qed.

Lemma normalize_sixteen_digits_witness :
  normalize (Some "010908312D230C5F") = Ok "0x010908312D230C5F" /\
  normalize (Some ("0x" ++ "010908312D230C5F")) = Err invalid_key_id.
Proof.
  apply (normalize_sixteen_digits "010908312D230C5F"); reflexivity.
Defined.

Section RetrieveProperties.

Context {order : SetOrder}.

(** X3: [retrieve] raises its [ValueError] exactly when the key id is [None]
    or its length is not an accepted one, whatever the options are (the id is
    checked first); when it does not raise, the dictionary is
    [{search, op, options}] with [op] equal to [get] and a [search] value
    that begins with [0x] and is the id itself or the id behind [0x]. *)
Theorem retrieve_params_check (key_id : option string)
    (options : option (list (option string))) :
  (retrieve_params key_id options = Err invalid_key_id <->
   key_id = None \/
   exists k, key_id = Some k /\
             existsb (Nat.eqb (Str.len k)) key_id_lengths = false) /\
  (forall params, retrieve_params key_id options = Ok params ->
     exists k opts,
       key_id = Some k /\
       _parse_options options = Ok opts /\
       let id := if Str.startswith k "0x" then k else "0x" ++ k in
       Str.startswith id "0x" = true /\
       params = <["options" := opts]> (<["op" := "get"]>
                  (<["search" := id]> ∅))).
Proof.
  unfold retrieve_params. split.
  - split.
    + destruct key_id as [k|]; [|now left]. intros Hraise. right.
      exists k. split; [reflexivity|].
      destruct (existsb (Nat.eqb (Str.len k)) key_id_lengths) eqn:Hlen;
        [|reflexivity].
      exfalso. unfold normalize in Hraise. rewrite Hlen in Hraise.
      pose proof (parse_options_fails_only options) as Hopts.
      destruct (negb (Str.startswith k "0x")); cbn [negb bind] in Hraise;
        destruct (_parse_options options); cbn [bind fails_only] in *;
        try discriminate; injection Hraise as ->;
        destruct Hopts; discriminate.
    + intros [->|[k [-> Hlen]]]; [reflexivity|].
      unfold normalize. now rewrite Hlen.
  - intros params Hok. destruct key_id as [k|]; [|discriminate].
    destruct (normalize (Some k)) as [id|] eqn:Hnorm; [|discriminate].
    cbn [bind] in Hok.
    destruct (_parse_options options) as [opts|]; [|discriminate].
    cbn [bind] in Hok. injection Hok as <-.
    destruct (normalize_accepts _ _ Hnorm) as [_ ->].
    exists k, opts. repeat split.
    destruct (Str.startswith k "0x") eqn:Hpre; [exact Hpre|reflexivity].
Qed.

(** ** [_parse_options] *)

Lemma for_each_add_option_None (l : list (option string)) (ops : gset string) :
  In None l -> for_each add_option l ops = Err AttributeError.
Proof.
  revert ops. induction l as [|[o|] l IH]; intros ops Hin; [destruct Hin| |].
  - destruct Hin as [[=]|Hin]. cbn [for_each add_option].
    destruct (_ || _); cbn [bind]; now apply IH.
  - reflexivity.
Qed.

Lemma for_each_add_option_Some (l : list (option string)) (ops : gset string) :
  ~ In None l -> exists ops', for_each add_option l ops = Ok ops'.
Proof.
  revert ops. induction l as [|[o|] l IH]; intros ops Hno.
  - now exists ops.
  - cbn [for_each add_option].
    destruct (_ || _); cbn [bind]; apply IH; intros Hin; apply Hno; now right.
  - exfalso. apply Hno. now left.
Qed.

(** X4: the option encoder raises in exactly two cases: on the empty tuple
    ([IndexError]), and on a tuple whose first element is a string and which
    has [None] further on ([AttributeError]). *)
Theorem parse_options_errors (options : option (list (option string)))
    (e : exn) :
  _parse_options options = Err e <->
  (options = Some [] /\ e = IndexError) \/
  (exists o rest, options = Some (Some o :: rest) /\ In None rest /\
                  e = AttributeError).
Proof.
  unfold _parse_options. split.
  - destruct options as [[|[o|] rest]|]; cbn [getitem nth_error bind];
      try discriminate.
    + intros [= <-]. now left.
    + intros Hraise. right. exists o, rest.
      destruct (decide ((None : option string) ∈ rest)) as [Hin|Hno];
        rewrite list_elem_of_In in *.
      * rewrite for_each_add_option_None in Hraise by now right.
        injection Hraise as <-. auto.
      * exfalso.
        destruct (for_each_add_option_Some (Some o :: rest)
                    (set_add "mr" ∅)) as [ops' Hok].
        { intros [[=]|Hin]. contradiction. }
        rewrite Hok in Hraise. discriminate Hraise.
  - intros [[-> ->]|[o [rest [-> [Hin ->]]]]]; [reflexivity|].
    cbn [getitem nth_error bind].
    now rewrite for_each_add_option_None by now right.
Qed.

(** X5: a leading [None] switches the whole tuple off: the encoder returns
    [mr] whatever follows it, and [search] ignores every extra variable that
    follows it. *)
Theorem leading_None_ignores_rest (rest : list (option string))
    (query operation exact : string)
    (options : option (list (option string)))
    (vars : list (option (string * string))) :
  _parse_options (Some (None :: rest)) = Ok "mr" /\
  search_params query operation exact options (None :: vars)
  = search_params query operation exact options [None].
Proof.
  split; [exact parse_options_none|reflexivity].
Qed.

End RetrieveProperties.

(** ** [search] *)

Section SearchProperties.

Context {order : SetOrder}.

Lemma add_variable_keeps (params params' : gmap string string)
    (var : option (string * string)) :
  add_variable params var = Ok params' ->
  (forall name, Str.startswith name "x-" = false ->
                params' !! name = params !! name) /\
  (forall name, is_Some (params' !! name) ->
                is_Some (params !! name) \/ Str.startswith name "x-" = true).
Proof.
  destruct var as [[n v]|]; [|discriminate]. cbn [add_variable].
  destruct (Str.startswith n "x-") eqn:Hn; intros [= <-]; [|auto].
  split; intros name.
  - intros Hname. apply lookup_insert_ne. congruence.
  - destruct (decide (n = name)) as [->|Hne]; [auto|].
    rewrite lookup_insert_ne by exact Hne. auto.
Qed.

Lemma for_each_add_variable_keeps (vars : list (option (string * string)))
    (params params' : gmap string string) :
  for_each add_variable vars params = Ok params' ->
  (forall name, Str.startswith name "x-" = false ->
                params' !! name = params !! name) /\
  (forall name, is_Some (params' !! name) ->
                is_Some (params !! name) \/ Str.startswith name "x-" = true).
Proof.
  revert params. induction vars as [|var vars IH]; intros params.
  - intros [= <-]. auto.
  - cbn [for_each].
    destruct (add_variable params var) as [mid|] eqn:Hvar; [|discriminate].
    cbn [bind]. intros Hrest.
    destruct (add_variable_keeps _ _ _ Hvar) as [K1 K2].
    destruct (IH _ Hrest) as [R1 R2]. split; intros name Hname.
    + now rewrite R1, K1.
    + destruct (R2 name Hname) as [Hmid|Hx]; [|now right]. now apply K2.
Qed.

Lemma search_base_names (query operation exact opts name : string) :
  is_Some (search_base query operation exact opts !! name) ->
  In name standard_names.
Proof.
  unfold search_base, standard_names. intros [v Hv].
  repeat (rewrite lookup_insert in Hv; case_decide;
          [subst name; cbn; tauto|]).
  now rewrite lookup_empty in Hv.
Qed.

(** X6: whatever extra variables are given, a dictionary returned by
    [search] holds the query under [search], the operation under [op], the
    encoded options under [options] and [on] or [off] under [exact] ([on]
    only for the argument [on]); every other key it holds begins with
    [x-]. *)
Theorem search_standard_parameters (query operation exact : string)
    (options : option (list (option string)))
    (other_variables : list (option (string * string)))
    (params : gmap string string) :
  search_params query operation exact options other_variables = Ok params ->
  exists opts,
    _parse_options options = Ok opts /\
    params !! "search" = Some query /\
    params !! "op" = Some operation /\
    params !! "options" = Some opts /\
    params !! "exact" = Some (if String.eqb exact "on" then "on" else "off") /\
    forall name, is_Some (params !! name) ->
                 In name standard_names \/ Str.startswith name "x-" = true.
Proof.
  unfold search_params.
  destruct (negb _ && negb _); [discriminate|].
  destruct (_parse_options options) as [opts|]; [|discriminate].
  cbn [bind]. intros Hok. exists opts. split; [reflexivity|].
  assert (Hkeep :
    (forall name, Str.startswith name "x-" = false ->
       params !! name = search_base query operation exact opts !! name) /\
    (forall name, is_Some (params !! name) ->
       is_Some (search_base query operation exact opts !! name) \/
       Str.startswith name "x-" = true)).
  { destruct other_variables as [|[var|] vars];
      cbn [getitem nth_error bind] in Hok; [discriminate| |].
    - now apply for_each_add_variable_keeps in Hok.
    - injection Hok as <-. auto. }
  destruct Hkeep as [K1 K2].
  rewrite !K1 by reflexivity. unfold search_base.
  repeat split; try (now simplify_map_eq).
  - rewrite lookup_insert_eq. f_equal.
    destruct (String.eqb_spec exact "on") as [->|_]; [reflexivity|].
    destruct (String.eqb_spec exact "off") as [->|_]; reflexivity.
  - intros name Hname. destruct (K2 name Hname) as [Hbase|Hx]; [|now right].
    left. now apply search_base_names in Hbase.
Qed.

Lemma for_each_add_variable_None (l : list (option (string * string)))
    (params : gmap string string) :
  In None l -> for_each add_variable l params = Err TypeError.
Proof.
  revert params.
  induction l as [|[[n v]|] l IH]; intros params Hin; [destruct Hin| |].
  - destruct Hin as [[=]|Hin]. cbn [for_each add_variable].
    destruct (Str.startswith n "x-"); cbn [bind]; now apply IH.
  - reflexivity.
Qed.

Lemma for_each_add_variable_Some (l : list (option (string * string)))
    (params : gmap string string) :
  ~ In None l -> exists params', for_each add_variable l params = Ok params'.
Proof.
  revert params. induction l as [|[[n v]|] l IH]; intros params Hno.
  - now exists params.
  - cbn [for_each add_variable].
    destruct (Str.startswith n "x-"); cbn [bind]; apply IH;
      intros Hin; apply Hno; now right.
  - exfalso. apply Hno. now left.
Qed.

(** X7: with an allowed operation and options that encode, [search] raises
    in exactly two cases: on an empty tuple of extra variables
    ([IndexError]), and on a tuple whose first element is a pair and which
    has [None] further on ([TypeError]). *)
Theorem search_variables_errors (query operation exact opts : string)
    (options : option (list (option string)))
    (other_variables : list (option (string * string))) (e : exn) :
  operation = "index" \/ Str.startswith operation "x-" = true ->
  _parse_options options = Ok opts ->
  (search_params query operation exact options other_variables = Err e <->
   (other_variables = [] /\ e = IndexError) \/
   (exists var rest, other_variables = Some var :: rest /\ In None rest /\
                     e = TypeError)).
Proof.
  intros Hop Hopts. unfold search_params.
  replace (negb (String.eqb operation "index")
           && negb (Str.startswith operation "x-")) with false
    by (destruct Hop as [-> | ->]; cbn [negb andb];
        now rewrite ?andb_false_r).
  rewrite Hopts. cbn [bind]. split.
  - destruct other_variables as [|[var|] rest];
      cbn [getitem nth_error bind]; try discriminate.
    + intros [= <-]. now left.
    + intros Hraise. right. exists var, rest.
      destruct (decide ((None : option (string * string)) ∈ rest))
        as [Hin|Hno]; rewrite list_elem_of_In in *.
      * rewrite for_each_add_variable_None in Hraise by now right.
        injection Hraise as <-. auto.
      * exfalso.
        destruct (for_each_add_variable_Some (Some var :: rest)
                    (search_base query operation exact opts)) as [p Hok].
        { intros [[=]|Hin]. contradiction. }
        rewrite Hok in Hraise. discriminate Hraise.
  - intros [[-> ->]|[var [rest [-> [Hin ->]]]]]; [reflexivity|].
    cbn [getitem nth_error bind].
    now rewrite for_each_add_variable_None by now right.
Qed.

End SearchProperties.

Lemma search_standard_parameters_witness :
  exists params : gmap string string,
    search_params "debian" "x-custom" "maybe" (Some [Some "nm"])
      [Some ("exact", "on"); Some ("x-exact", "on")] = Ok params /\
    params !! "exact" = Some "off".
Proof.
  eexists. split; [reflexivity|].
  destruct (search_standard_parameters "debian" "x-custom" "maybe"
              (Some [Some "nm"])
              [Some ("exact", "on"); Some ("x-exact", "on")] _ eq_refl)
    as [opts [_ [_ [_ [_ [H _]]]]]].
  exact H.
Defined.

Lemma search_variables_errors_witness :
  search_params "debian" "index" "off" None
    [Some ("x-a", "1"); None] = Err TypeError.
Proof.
  apply (search_variables_errors "debian" "index" "off" "mr" None
           [Some ("x-a", "1"); None] TypeError).
  - now left.
  - reflexivity.
  - right. exists ("x-a", "1"), [None]. split; [reflexivity|].
    split; [now left|reflexivity].
Defined.

(** ** [_parse_index]: segments and records *)

Lemma parse_segment_records (l : list string) (acc keys : list key_dict) :
  for_each parse_segment l acc = Ok keys <->
  exists new,
    keys = (acc ++ new)%list /\
    Forall2 (fun seg kd => parse_key seg = Ok kd)
            (List.filter (fun seg => negb (Str.startswith seg "info")) l) new.
Proof.
  revert acc. induction l as [|seg l IH]; intros acc.
  - cbn [for_each List.filter]. split.
    + intros [= <-]. exists []. split; [now rewrite app_nil_r|constructor].
    + intros [new [-> HF]]. inversion HF. now rewrite app_nil_r.
  - cbn [for_each List.filter]. unfold parse_segment at 1.
    destruct (Str.startswith seg "info"); cbn [negb bind]; [apply IH|].
    destruct (parse_key seg) as [kd|e] eqn:Hseg; cbn [bind].
    + rewrite IH. split; intros [new [-> HF]].
      * exists (kd :: new). split; [now rewrite <- app_assoc|].
        now constructor.
      * inversion HF as [|? kd' ? new' Hkd HF']. subst.
        rewrite Hseg in Hkd. injection Hkd as <-.
        exists new'. split; [now rewrite <- app_assoc|assumption].
    + split; [discriminate|]. intros [new [_ HF]].
      inversion HF as [|? kd' ? new' Hkd HF']. congruence.
Qed.

Lemma parse_segment_raises (l : list string) (acc : list key_dict) (e : exn) :
  for_each parse_segment l acc = Err e <->
  exists pre seg post,
    List.filter (fun seg => negb (Str.startswith seg "info")) l
    = (pre ++ seg :: post)%list /\
    Forall (fun s => is_ok (parse_key s) = true) pre /\
    parse_key seg = Err e.
Proof.
  revert acc. induction l as [|a l IH]; intros acc.
  - cbn [for_each List.filter]. split; [discriminate|].
    intros [pre [seg [post [Hf _]]]]. now destruct pre.
  - cbn [for_each List.filter]. unfold parse_segment at 1.
    destruct (Str.startswith a "info"); cbn [negb bind]; [apply IH|].
    destruct (parse_key a) as [kd|e'] eqn:Ha; cbn [bind].
    + rewrite IH. split; intros [pre [seg [post [Hf [Hpre Hseg]]]]].
      * exists (a :: pre), seg, post. rewrite Hf. repeat split; auto.
        constructor; [now rewrite Ha|assumption].
      * destruct pre as [|p pre]; injection Hf as -> Hf; [congruence|].
        inversion Hpre; subst. exists pre, seg, post.
        split; [exact Hf|]. split; assumption.
    + split.
      * intros [= <-].
        exists [], a,
          (List.filter (fun seg => negb (Str.startswith seg "info")) l).
        repeat split; auto.
      * intros [pre [seg [post [Hf [Hpre Hseg]]]]].
        destruct pre as [|p pre]; injection Hf as -> Hf; [congruence|].
        inversion Hpre as [|? ? Hp]. rewrite Ha in Hp. discriminate Hp.
Qed.

Lemma parse_index_Ok (body : string) (keys : list key_dict) :
  _parse_index body = Ok keys <->
  Forall2 (fun seg kd => parse_key seg = Ok kd) (segments body) keys.
Proof.
  unfold _parse_index, segments. rewrite parse_segment_records.
  split; [intros [new [-> HF]]; exact HF|intros HF; now exists keys].
Qed.

(** X8: parsing returns a list exactly when every segment that is not the
    info line parses, and the list then holds one record per such segment, in
    the order of the segments. *)
Theorem parse_index_records (body : string) (keys : list key_dict) :
  (_parse_index body = Ok keys <->
   Forall2 (fun seg kd => parse_key seg = Ok kd) (segments body) keys) /\
  (_parse_index body = Ok keys -> length keys = length (segments body)).
Proof.
  split; [apply parse_index_Ok|].
  intros Hok. apply parse_index_Ok in Hok. symmetry.
  now apply Forall2_length in Hok.
Qed.

(** X9: parsing raises exactly the error of the first segment that fails:
    the segments before it parse, and nothing of them is returned. *)
Theorem parse_index_first_error (body : string) (e : exn) :
  _parse_index body = Err e <->
  exists pre seg post,
    segments body = (pre ++ seg :: post)%list /\
    Forall (fun s => is_ok (parse_key s) = true) pre /\
    parse_key seg = Err e.
Proof. unfold _parse_index, segments. apply parse_segment_raises. Qed.

(** X10: a body that begins with [pub], that is, one without the info line,
    raises [IndexError]: the empty text before the first [pub] is parsed as
    a key. *)
Theorem parse_index_without_info (body : string) :
  Str.startswith (strip_newlines body) "pub" = true ->
  _parse_index body = Err IndexError.
Proof.
  intros Hpub. apply startswith_spec in Hpub as [t Ht].
  unfold _parse_index, Str.split. rewrite Ht.
  rewrite split_go_match by discriminate. reflexivity.
Qed.

Lemma parse_index_without_info_witness :
  _parse_index (lines ["pub:AABBCCDD:17:2048:1136214245::"]) = Err IndexError.
Proof.
  apply (parse_index_without_info
           (lines ["pub:AABBCCDD:17:2048:1136214245::"])).
  reflexivity.
Defined.

(** ** [_parse_index]: the records *)

Lemma for_each_invariant {A S : Type} (P : S -> Prop)
    (body : S -> A -> result S) (l : list A) :
  (forall st x st', P st -> body st x = Ok st' -> P st') ->
  forall st st', P st -> for_each body l st = Ok st' -> P st'.
Proof.
  intros Hstep. induction l as [|x l IH]; intros st st' Hst.
  - now intros [= <-].
  - cbn [for_each]. destruct (body st x) as [mid|] eqn:Hx; [|discriminate].
    cbn [bind]. apply IH. now apply (Hstep st x).
Qed.

Lemma parse_value_shape (kd kd' : key_dict) (piece : string) :
  parse_value kd piece = Ok kd' ->
  if is_key_piece piece
  then user_ids kd' = user_ids kd /\ exists p, primary_key kd' = Some p
  else primary_key kd' = primary_key kd /\
       exists u, user_ids kd' = (user_ids kd ++ [u])%list.
Proof.
  unfold parse_value, is_key_piece, fields.
  destruct (4 <? length (Str.split piece ":"))%nat.
  - destruct (primary_of _) as [p|]; [|discriminate]. intros [= <-]. eauto.
  - destruct (uid_of _) as [u|]; [|discriminate]. intros [= <-]. eauto.
Qed.

Lemma parse_pieces_shape (l : list string) (kd kd' : key_dict) :
  for_each parse_value l kd = Ok kd' ->
  length (user_ids kd')
  = (length (user_ids kd)
     + length (List.filter (fun p => negb (is_key_piece p)) l))%nat /\
  (primary_key kd' = None <->
   primary_key kd = None /\ existsb is_key_piece l = false).
Proof.
  revert kd. induction l as [|piece l IH]; intros kd.
  - intros [= <-]. cbn. split; [lia|tauto].
  - cbn [for_each List.filter existsb].
    destruct (parse_value kd piece) as [mid|] eqn:Hp; [|discriminate].
    cbn [bind]. intros Hrest. apply parse_value_shape in Hp.
    destruct (IH _ Hrest) as [Hlen Hprim]. rewrite Hlen, Hprim.
    destruct (is_key_piece piece); cbn [negb orb length].
    + destruct Hp as [-> [p ->]]. split; [reflexivity|].
      split; [intros [[=] _]|intros [_ [=]]].
    + destruct Hp as [-> [u ->]]. rewrite length_app. cbn [length].
      split; [lia|reflexivity].
Qed.

(** X11: in the record of a segment the number of identities is the number
    of pieces with at most four colon-delimited fields, and the primary key
    is missing exactly when no piece has more than four. *)
Theorem parse_key_shape (seg : string) (kd : key_dict) :
  parse_key seg = Ok kd ->
  length (user_ids kd)
  = length (List.filter (fun p => negb (is_key_piece p))
                        (Str.split seg "uid:")) /\
  (primary_key kd = None <->
   existsb is_key_piece (Str.split seg "uid:") = false).
Proof.
  unfold parse_key. intros Hok. apply parse_pieces_shape in Hok as [Hlen Hp].
  split; [exact Hlen|]. rewrite Hp. cbn. tauto.
Qed.

Lemma parse_key_shape_witness :
  exists kd,
    parse_key ":AABBCCDD:17:2048:1136214245::uid:A:::uid:B:::" = Ok kd /\
    length (user_ids kd) = 2%nat /\ primary_key kd <> None.
Proof.
  eexists. split; [reflexivity|].
  destruct (parse_key_shape
              ":AABBCCDD:17:2048:1136214245::uid:A:::uid:B:::" _ eq_refl)
    as [Hlen Hprim].
  split; [exact Hlen|]. intros Hnone. apply Hprim in Hnone.
  discriminate Hnone.
Defined.

Lemma primary_of_algorithm (value : list string) (p : primary) :
  primary_of value = Ok p ->
  algorithm p = lookup_pubkey_algorithm (algorithm_id p).
Proof.
  unfold primary_of.
  repeat match goal with
         | |- context [bind ?r _] =>
             destruct r; cbn [bind]; [|discriminate]
         end.
  now intros [= <-].
Qed.

(** X12: in every record returned, the algorithm name of the primary key is
    the name [lookup_pubkey_algorithm] gives to its algorithm id. *)
Theorem parse_index_algorithm_name (body : string) (keys : list key_dict) :
  _parse_index body = Ok keys ->
  forall kd p, In kd keys -> primary_key kd = Some p ->
               algorithm p = lookup_pubkey_algorithm (algorithm_id p).
Proof.
  intros Hok. apply parse_index_Ok in Hok.
  induction Hok as [|seg kd0 segs keys Hseg _ IH]; intros kd p Hin;
    [destruct Hin|]. destruct Hin as [->|Hin].
  - revert p. unfold parse_key in Hseg. revert Hseg.
    apply (for_each_invariant
             (fun kd => forall p, primary_key kd = Some p ->
                algorithm p = lookup_pubkey_algorithm (algorithm_id p)));
      [|discriminate].
    intros st piece st' Hst. unfold parse_value.
    destruct (4 <? _)%nat.
    + destruct (primary_of _) as [q|] eqn:Hq; [|discriminate].
      intros [= <-] p [= <-]. now apply primary_of_algorithm in Hq.
    + destruct (uid_of _); [|discriminate]. intros [= <-]. exact Hst.
  - now apply IH.
Qed.

Lemma parse_index_algorithm_name_witness :
  exists keys kd p,
    _parse_index (lines ["info:1:1"; "pub:AABBCCDD:105:2048:::"]) = Ok keys /\
    In kd keys /\ primary_key kd = Some p /\
    algorithm p = "Private/Experimental algorithm".
Proof.
  do 3 eexists. split; [reflexivity|]. split; [now left|].
  split; [reflexivity|].
  refine (parse_index_algorithm_name
            (lines ["info:1:1"; "pub:AABBCCDD:105:2048:::"]) _ eq_refl
            _ _ (or_introl eq_refl) eq_refl).
Defined.

Lemma parse_index_records_witness :
  exists keys,
    _parse_index
      (lines ["info:1:2"; "pub:A:1:1024:::"; "uid:a:::"; "pub:B:17:2048:::"])
    = Ok keys /\ length keys = 2%nat.
Proof.
  eexists. split; [reflexivity|].
  apply (parse_index_records
           (lines ["info:1:2"; "pub:A:1:1024:::"; "uid:a:::";
                   "pub:B:17:2048:::"])).
  reflexivity.
Defined.

(** ** Dates *)

Lemma convert_date_absent (date : string) :
  convert_date_if_set date = Ok None <-> date = "".
Proof.
  unfold convert_date_if_set.
  destruct (String.eqb_spec date "") as [->|Hne]; cbn [negb].
  - tauto.
  - split; [|contradiction].
    destruct (int date); cbn [bind]; [|discriminate].
    destruct (utcfromtimestamp _); cbn [bind]; discriminate.
Qed.

(** X13: a date is absent exactly when its field is the empty string: for
    [convert_date_if_set] itself, for the two dates of an identity (fields 1
    and 2) and for the two dates of a primary key (fields 4 and 5).  A field
    holding [0] gives a date, not an absent one. *)
Theorem dates_absent_iff_empty (value : list string) :
  (forall date, convert_date_if_set date = Ok None <-> date = "") /\
  (forall u, uid_of value = Ok u ->
     (uid_creation u = None <-> nth 1 value "x" = "") /\
     (uid_expiration u = None <-> nth 2 value "x" = "")) /\
  (forall p, primary_of value = Ok p ->
     (creation p = None <-> nth 4 value "x" = "") /\
     (expiration p = None <-> nth 5 value "x" = "")).
Proof.
  split; [exact convert_date_absent|]. split.
  - intros u. unfold uid_of, getitem.
    destruct value as [|a [|b [|c [|d rest]]]]; cbn [nth_error bind nth];
      try discriminate;
      try (destruct (convert_date_if_set b); discriminate).
    + destruct (convert_date_if_set b); cbn [bind]; [|discriminate].
      destruct (convert_date_if_set c); discriminate.
    + destruct (convert_date_if_set b) as [cre|] eqn:Hb; cbn [bind];
        [|discriminate].
      destruct (convert_date_if_set c) as [exp|] eqn:Hc; cbn [bind];
        [|discriminate].
      intros [= <-]. cbn [uid_creation uid_expiration].
      rewrite <- !convert_date_absent, Hb, Hc.
      split; split; congruence.
  - intros p. unfold primary_of, getitem.
    destruct value as [|a [|b [|c [|d [|e [|f [|g rest]]]]]]];
      cbn [nth_error bind nth]; try discriminate;
      repeat match goal with
             | |- context [bind (int ?s) _] =>
                 destruct (int s); cbn [bind]; try discriminate
             end;
      destruct (convert_date_if_set e) as [cre|] eqn:He; cbn [bind];
      try discriminate;
      destruct (convert_date_if_set f) as [exp|] eqn:Hf; cbn [bind];
      try discriminate.
    intros [= <-]. cbn [creation expiration].
    rewrite <- !convert_date_absent, He, Hf.
    split; split; congruence.
Qed.

Lemma dates_absent_iff_empty_witness :
  exists u,
    uid_of ["Jane"; "0"; ""; ""] = Ok u /\
    uid_creation u <> None /\ uid_expiration u = None.
Proof.
  eexists. split; [reflexivity|].
  destruct (dates_absent_iff_empty ["Jane"; "0"; ""; ""]) as [_ [H _]].
  destruct (H _ eq_refl) as [Hc He]. split.
  - intros Hnone. apply Hc in Hnone. discriminate Hnone.
  - apply He. reflexivity.
Defined.

(** ** Line breaks *)

Lemma remove_char_append (c : ascii) (a b : string) :
  Str.remove_char c (a ++ b) = Str.remove_char c a ++ Str.remove_char c b.
Proof.
  induction a as [|x a IH]; [reflexivity|].
  rewrite append_cons. cbn [Str.remove_char].
  destruct (Ascii.eqb x c); [exact IH|]. now rewrite append_cons, IH.
Qed.

Lemma strip_newlines_break (a b : string) :
  strip_newlines (a ++ String LF b) = strip_newlines (a ++ b) /\
  strip_newlines (a ++ String CR b) = strip_newlines (a ++ b).
Proof.
  unfold strip_newlines. split.
  - now rewrite !(remove_char_append LF).
  - rewrite !(remove_char_append LF). rewrite !(remove_char_append CR).
    reflexivity.
Qed.

(** X14: a line feed or a carriage return changes nothing, wherever it
    stands in the body, inside a field or inside the word [pub] included. *)
Theorem parse_index_ignores_line_breaks (a b : string) :
  _parse_index (a ++ String LF b) = _parse_index (a ++ b) /\
  _parse_index (a ++ String CR b) = _parse_index (a ++ b).
Proof.
  unfold _parse_index.
  destruct (strip_newlines_break a b) as [-> ->]. split; reflexivity.
Qed.

(** ** Well-formed lines *)

Lemma split_go_colon (f rest cur : string) :
  colon_free f = true ->
  Str.split_go ":" 0 cur (f ++ String ":" rest)
  = (cur ++ f) :: Str.split_go ":" 0 "" rest.
Proof.
  unfold colon_free. rewrite negb_true_iff. revert cur.
  induction f as [|a f IH]; intros cur Hfree.
  - now rewrite append_empty_r.
  - apply contains_cons in Hfree as [Hpre Hfree].
    rewrite append_cons. cbn [Str.split_go Str.startswith] in *.
    destruct (Ascii.eqb a ":"); [discriminate|].
    rewrite (IH _ Hfree). now rewrite append_snoc.
Qed.

(** Splitting on the colon undoes joining colon-free fields with it. *)
Lemma fields_join (l : list string) :
  l <> [] -> forallb colon_free l = true ->
  fields (Str.join ":" l) = l.
Proof.
  induction l as [|x [|y l] IH]; intros Hne Hfree; [contradiction| |].
  - cbn [forallb] in Hfree. apply andb_true_iff in Hfree as [Hx _].
    unfold colon_free in Hx. apply negb_true_iff in Hx.
    unfold fields. now rewrite split_absent.
  - cbn [forallb] in Hfree. apply andb_true_iff in Hfree as [Hx Hrest].
    change (Str.join ":" (x :: y :: l))
      with (x ++ String ":" (Str.join ":" (y :: l))).
    unfold fields, Str.split. rewrite (split_go_colon _ _ _ Hx).
    f_equal. apply IH; [discriminate|exact Hrest].
Qed.

(** X15: an identity block [user:creation:expiration:flags] whose four
    fields have no colon in them adds one identity to the record: the user
    id as written, the two dates converted, and [revoked], [disabled],
    [expired] telling whether the flags contain [r], [d], [e]; it raises only
    when a date does not convert. *)
Theorem parse_identity_block (kd : key_dict) (user cre exp flags : string) :
  forallb colon_free [user; cre; exp; flags] = true ->
  parse_value kd (Str.join ":" [user; cre; exp; flags])
  = (let* c := convert_date_if_set cre in
     let* e := convert_date_if_set exp in
     Ok (mk_key_dict (primary_key kd)
           (user_ids kd
            ++ [mk_uid user c e (Str.contains "r" flags)
                       (Str.contains "d" flags) (Str.contains "e" flags)]))).
Proof.
  intros Hfree. unfold parse_value.
  change (Str.split (Str.join ":" [user; cre; exp; flags]) ":")
    with (fields (Str.join ":" [user; cre; exp; flags])).
  rewrite fields_join by (discriminate || exact Hfree).
  cbn [length Nat.ltb Nat.leb]. unfold uid_of, getitem.
  cbn [nth_error bind].
  destruct (convert_date_if_set cre); cbn [bind]; [|reflexivity].
  destruct (convert_date_if_set exp); reflexivity.
Qed.

Lemma parse_identity_block_witness :
  parse_value empty_key_dict "Jane Doe <jane@example.org>:::rd"
  = Ok (mk_key_dict None
          [mk_uid "Jane Doe <jane@example.org>" None None true true false]).
Proof.
  apply (parse_identity_block empty_key_dict
           "Jane Doe <jane@example.org>" "" "" "rd").
  reflexivity.
Defined.

(** X16: a key line tail [:id:algorithm:length:creation:expiration:flags]
    whose fields have no colon in them sets the primary key of the record:
    the key id as written, algorithm id and length read as integers, the
    algorithm name looked up from the id, the two dates converted and the
    three flags read off the flags field; the identities are untouched, and
    it raises only when a number or a date does not convert. *)
Theorem parse_key_line (kd : key_dict)
    (id alg klen cre exp flags : string) :
  forallb colon_free [id; alg; klen; cre; exp; flags] = true ->
  parse_value kd (Str.join ":" [""; id; alg; klen; cre; exp; flags])
  = (let* a := int alg in
     let* n := int klen in
     let* c := convert_date_if_set cre in
     let* e := convert_date_if_set exp in
     Ok (mk_key_dict
           (Some (mk_primary id a (lookup_pubkey_algorithm a) n c e
                    (Str.contains "r" flags) (Str.contains "d" flags)
                    (Str.contains "e" flags)))
           (user_ids kd))).
Proof.
  intros Hfree. unfold parse_value.
  change (Str.split (Str.join ":" [""; id; alg; klen; cre; exp; flags]) ":")
    with (fields (Str.join ":" [""; id; alg; klen; cre; exp; flags])).
  rewrite fields_join by (discriminate || exact Hfree).
  cbn [length Nat.ltb Nat.leb]. unfold primary_of, getitem.
  cbn [nth_error bind].
  destruct (int alg); cbn [bind]; [|reflexivity].
  destruct (int klen); cbn [bind]; [|reflexivity].
  destruct (convert_date_if_set cre); cbn [bind]; [|reflexivity].
  destruct (convert_date_if_set exp); reflexivity.
Qed.

Lemma parse_key_line_witness :
  exists d,
    utcfromtimestamp 1136214245 = Ok d /\
    parse_value empty_key_dict ":2D230C5F:1:4096:1136214245::e"
    = Ok (mk_key_dict
            (Some (mk_primary "2D230C5F" 1 "RSA Encrypt or Sign" 4096
                              (Some d) None false false true))
            []).
Proof.
  eexists. split; [reflexivity|].
  apply (parse_key_line empty_key_dict
           "2D230C5F" "1" "4096" "1136214245" "" "e").
  reflexivity.
Defined.

Lemma retrieve_params_check_witness :
  exists params : gmap string string,
    retrieve_params (Some "2D230C5F") (Some [None]) = Ok params /\
    params = <["options" := "mr"]> (<["op" := "get"]>
               (<["search" := "0x2D230C5F"]> ∅)).
Proof.
  eexists. split; [reflexivity|].
  destruct (retrieve_params_check (Some "2D230C5F") (Some [None])) as [_ H].
  destruct (H _ eq_refl) as [k [opts [Hk [Hopts [_ Hparams]]]]].
  injection Hk as <-. injection Hopts as <-. exact Hparams.
Defined.

(** White space that [int] strips, and what it does not. *)
Example int_white_space :
  int ("1" ++ String (ascii_of_nat 160) "") = Ok 1 /\
  int (String (ascii_of_nat 133) "17") = Ok 17 /\
  int (String (ascii_of_nat 9) "17 ") = Ok 17 /\
  int (String (ascii_of_nat 28) "17") = Err invalid_literal /\
  int "1 7" = Err invalid_literal /\
  int "- 17" = Err invalid_literal.
Proof. repeat split; reflexivity. Qed.
